(** * vectorizer_ai.utils: the client-side validation helpers

    A shallow embedding of [src/vectorizer_ai/utils.py]: the Python objects
    the helpers receive, the outcome of a call (a returned value or a raised
    exception), and the four helpers [enforce_types], [param_exists],
    [validate_param] and [validate_hex], each translated statement by
    statement. *)

From Stdlib Require Import ZArith Bool Ascii String List Lia.
From Stdlib Require Import Floats.SpecFloat.
From stdpp Require Import gmap strings.
Import ListNotations.

Local Open Scope string_scope.
Local Open Scope Z_scope.

(** ** Python objects *)

(** Scalar objects.  A [str] is kept as its UTF-8 bytes: equality, emptiness
    and code-point order are the same on both sides, and the only pattern the
    module matches is made of ASCII characters.  A [float] is an IEEE 754
    binary64 value, as [spec_float] in canonical form.  [AInst c] is an instance of a
    user-defined class [c] that overrides none of [__bool__], [__eq__] and
    the ordering methods. *)
Inductive atom : Type :=
| ANone
| ABool (b : bool)
| AInt (n : Z)
| AFloat (f : spec_float)
| AStr (s : string)
| ABytes (s : string)
| AInst (cls : string).

(** An object is a scalar together with its identity ([id(x)]): the list
    membership test [in] looks at identity before equality. *)
Record obj : Type := Obj { oid : nat; oval : atom }.

(** The values handed to the helpers: a scalar object, or a built-in
    container of scalar objects. *)
Inductive value : Type :=
| VScalar (o : obj)
| VTuple (xs : list obj)
| VList (xs : list obj)
| VSet (xs : list obj).

(** ** Outcomes *)

Inductive exn : Type := ValueError | TypeError | KeyError.

Inductive result (A : Type) : Type :=
| Return (a : A)
| Raise (e : exn).
Arguments Return {A} a.
Arguments Raise {A} e.

Definition bind {A B : Type} (r : result A) (k : A -> result B) : result B :=
  match r with
  | Return a => k a
  | Raise e => Raise e
  end.

Notation "'try' x ':=' r 'in' k" := (bind r (fun x => k))
  (at level 10, x name, r at level 100, k at level 200).

(** ** Truth value, equality and ordering of scalars *)

(** The numeric tower: [bool] is a subclass of [int], [True] is 1. *)
Inductive num : Type :=
| NZ (n : Z)
| NF (f : spec_float).

Definition as_num (a : atom) : option num :=
  match a with
  | ABool b => Some (NZ (if b then 1 else 0))
  | AInt n => Some (NZ n)
  | AFloat f => Some (NF f)
  | _ => None
  end.

(** An [int] against a [float]: Python compares the exact values, with no
    rounding of the integer.  [None] stands for unordered (NaN). *)
Definition Z_SF_compare (n : Z) (f : spec_float) : option comparison :=
  match f with
  | S754_nan => None
  | S754_infinity s => Some (if s then Gt else Lt)
  | S754_zero _ => Some (n ?= 0)
  | S754_finite s m e =>
      let v := if s then Z.neg m else Z.pos m in
      if 0 <=? e then Some (n ?= v * 2 ^ e) else Some (n * 2 ^ (- e) ?= v)
  end.

Definition num_compare (x y : num) : option comparison :=
  match x, y with
  | NZ a, NZ b => Some (a ?= b)
  | NZ a, NF g => Z_SF_compare a g
  | NF f, NZ b => option_map CompOpp (Z_SF_compare b f)
  | NF f, NF g => SFcompare f g
  end.

Definition num_eqb (x y : num) : bool :=
  match num_compare x y with
  | Some Eq => true
  | _ => false
  end.

Definition num_leb (x y : num) : bool :=
  match num_compare x y with
  | Some (Lt | Eq) => true
  | _ => false
  end.

(** [bool(x)] for a scalar. *)
Definition atom_truthy (a : atom) : bool :=
  match a with
  | ANone => false
  | ABool b => b
  | AInt n => negb (n =? 0)
  | AFloat f => negb (SFeqb f (S754_zero false))
  | AStr s => negb (String.eqb s "")
  | ABytes s => negb (String.eqb s "")
  | AInst _ => true
  end.

(** [bool(x)] for any value: a container is true when it is not empty. *)
Definition truthy (v : value) : bool :=
  match v with
  | VScalar o => atom_truthy (oval o)
  | VTuple xs | VList xs | VSet xs =>
      match xs with
      | [] => false
      | _ :: _ => true
      end
  end.

(** [x is y]. *)
Definition py_is (x y : obj) : bool := Nat.eqb (oid x) (oid y).

(** [x == y]: numbers by value across [bool], [int] and [float]; [str] and
    [bytes] by content and never equal to each other; an instance of a plain
    class only to itself; everything else is unequal. *)
Definition py_eq (x y : obj) : bool :=
  match as_num (oval x), as_num (oval y) with
  | Some a, Some b => num_eqb a b
  | _, _ =>
      match oval x, oval y with
      | ANone, ANone => true
      | AStr s, AStr t => String.eqb s t
      | ABytes s, ABytes t => String.eqb s t
      | AInst _, AInst _ => py_is x y
      | _, _ => false
      end
  end.

(** [x <= y]: defined between numbers, between two [str] and between two
    [bytes]; any other pair raises [TypeError]. *)
Definition py_le (x y : atom) : result bool :=
  match as_num x, as_num y with
  | Some a, Some b => Return (num_leb a b)
  | _, _ =>
      match x, y with
      | AStr s, AStr t => Return (String.leb s t)
      | ABytes s, ABytes t => Return (String.leb s t)
      | _, _ => Raise TypeError
      end
  end.

(** [x in xs] for a list: some element is [x] itself or equals [x]. *)
Definition py_in (x : obj) (xs : list obj) : bool :=
  existsb (fun e => py_is x e || py_eq x e) xs.

(** ** The fragment of [re] that [validate_hex] uses *)

(** Items of a compiled pattern: the anchors [^] and [$], a literal
    character, and a character class given by its ranges. *)
Inductive re_item : Type :=
| Bol
| Eol
| Lit (c : ascii)
| Class (ranges : list (ascii * ascii)).

(** A pattern is a sequence of items, each with a repetition count [{n}]. *)
Definition pattern : Type := list (re_item * nat).

Definition expand (p : pattern) : list re_item :=
  flat_map (fun '(i, n) => repeat i n) p.

Definition newline : ascii := ascii_of_nat 10.

Definition in_class (c : ascii) (ranges : list (ascii * ascii)) : bool :=
  existsb (fun '(lo, hi) => Ascii.leb lo c && Ascii.leb c hi) ranges.

(** Matching at position [pos], with [rest] the text from there on.  No flag
    is set, so [^] holds at position 0 only, and [$] holds at the end of the
    text and also just before a newline that ends the text. *)
Fixpoint match_here (items : list re_item) (pos : nat) (rest : string) : bool :=
  match items with
  | [] => true
  | Bol :: k => Nat.eqb pos 0 && match_here k pos rest
  | Eol :: k =>
      (String.eqb rest "" || String.eqb rest (String newline ""))
      && match_here k pos rest
  | Lit c :: k =>
      match rest with
      | String a r => Ascii.eqb a c && match_here k (S pos) r
      | EmptyString => false
      end
  | Class rs :: k =>
      match rest with
      | String a r => in_class a rs && match_here k (S pos) r
      | EmptyString => false
      end
  end.

(** [p.match(v)]: a match object (true) or [None] (false) for a [str]; a
    pattern made from a [str] raises [TypeError] on [bytes] and on anything
    that is not text. *)
Definition re_match (p : pattern) (v : value) : result bool :=
  match v with
  | VScalar (Obj _ (AStr s)) => Return (match_here (expand p) 0 s)
  | _ => Raise TypeError
  end.

(** The class [[0-9a-fA-F]]. *)
Definition hex_class : list (ascii * ascii) :=
  [("0", "9"); ("a", "f"); ("A", "F")]%char.

(** [re.compile(r'^#[0-9a-fA-F]{6}$')] *)
Definition hex_pattern : pattern :=
  [ (Bol, 1%nat); (Lit "#", 1%nat); (Class hex_class, 6%nat); (Eol, 1%nat) ].

(** ** The helpers *)

(** [any(xs)] *)
Definition any (xs : list value) : bool := existsb truthy xs.

(** [sep.join(xs)]: every item has to be a [str]. *)
Definition as_str (v : value) : result string :=
  match v with
  | VScalar (Obj _ (AStr s)) => Return s
  | _ => Raise TypeError
  end.

Fixpoint join (sep : string) (xs : list value) : result string :=
  match xs with
  | [] => Return ""
  | x :: rest =>
      try s := as_str x in
      match rest with
      | [] => Return s
      | _ :: _ => try t := join sep rest in Return (s ++ sep ++ t)
      end
  end.

(** [param_exists(names, params)].  The text of an exception is not kept;
    what building it can raise is.  Formatting a scalar with [str] raises
    nothing. *)
Definition param_exists (names : list value) (params : list value) : result unit :=
  if negb (any params) then
    try msg := join ", " names in Raise ValueError
  else Return tt.

(** [a <= b <= c]: [b <= c] is evaluated only when [a <= b] holds. *)
Definition chain_le (a b c : atom) : result bool :=
  try r := py_le a b in
  if r then py_le b c else Return false.

(** [validate_param(param, options)]: the range check when [options] is a
    tuple of length 2, the membership check when it is a list, and nothing
    otherwise. *)
Definition validate_param (param : obj) (options : value) : result unit :=
  match options with
  | VTuple [start; stop] =>
      if atom_truthy (oval param) then
        try within := chain_le (oval start) (oval param) (oval stop) in
        if negb within then Raise ValueError else Return tt
      else Return tt
  | VList xs =>
      if negb (py_in param xs) then Raise ValueError else Return tt
  | _ => Return tt
  end.

(** [validate_hex(color)] *)
Definition validate_hex (color : value) : result unit :=
  try m := re_match hex_pattern color in
  if negb m then Raise ValueError else Return tt.

(** ** [enforce_types] *)

(** The classes an annotation can name: the built-in ones of the values
    above, [object], and user-defined classes deriving from [object]. *)
Inductive pytype : Type :=
| TObject
| TNoneType
| TBool
| TInt
| TFloat
| TStr
| TBytes
| TTuple
| TList
| TSet
| TClass (name : string).

#[global] Instance pytype_eq_dec : EqDecision pytype.
Proof. solve_decision. Defined.

(** [type(v)] *)
Definition type_of (v : value) : pytype :=
  match v with
  | VScalar o =>
      match oval o with
      | ANone => TNoneType
      | ABool _ => TBool
      | AInt _ => TInt
      | AFloat _ => TFloat
      | AStr _ => TStr
      | ABytes _ => TBytes
      | AInst c => TClass c
      end
  | VTuple _ => TTuple
  | VList _ => TList
  | VSet _ => TSet
  end.

(** [issubclass(c, t)]: every class derives from [object], [bool] from
    [int]. *)
Definition issubclass (c t : pytype) : bool :=
  bool_decide (c = t) || bool_decide (t = TObject)
  || (bool_decide (c = TBool) && bool_decide (t = TInt)).

Definition isinstance (v : value) (t : pytype) : bool :=
  issubclass (type_of v) t.

(** A parameter of a signature: its name, its annotation ([None] for
    [sig.empty]) and its default value, if any.  Parameters are of the
    positional-or-keyword kind. *)
Record parameter : Type := MkParam
  { pname : string; annotation : option pytype; default : option value }.

Definition signature : Type := list parameter.

(** The arguments of a [BoundArguments], in the order of the parameters. *)
Definition arguments : Type := list (string * value).

(** [sig.parameters[name]] *)
Fixpoint sig_parameter (sig : signature) (name : string) : result parameter :=
  match sig with
  | [] => Raise KeyError
  | p :: rest =>
      if String.eqb (pname p) name then Return p else sig_parameter rest name
  end.

(** [arguments[name]] *)
Fixpoint arg_lookup (args : arguments) (name : string) : option value :=
  match args with
  | [] => None
  | (n, v) :: rest => if String.eqb n name then Some v else arg_lookup rest name
  end.

(** [sig.bind] on the call's arguments: positional arguments go to the parameters in
    order, the remaining parameters are taken from the keywords; a parameter
    left without a value needs a default, and no keyword may be left over. *)
Fixpoint sig_bind (sig : signature) (args : list value)
    (kwargs : gmap string value) : result arguments :=
  match sig with
  | [] =>
      match args with
      | _ :: _ => Raise TypeError
      | [] => if bool_decide (kwargs = ∅) then Return [] else Raise TypeError
      end
  | p :: sig' =>
      match args with
      | a :: args' =>
          match kwargs !! pname p with
          | Some _ => Raise TypeError
          | None =>
              try rest := sig_bind sig' args' kwargs in
              Return ((pname p, a) :: rest)
          end
      | [] =>
          match kwargs !! pname p with
          | Some v =>
              try rest := sig_bind sig' [] (delete (pname p) kwargs) in
              Return ((pname p, v) :: rest)
          | None =>
              match default p with
              | Some _ => sig_bind sig' [] kwargs
              | None => Raise TypeError
              end
          end
      end
  end.

(** [bound.apply_defaults()] *)
Fixpoint apply_defaults (sig : signature) (args : arguments) : arguments :=
  match sig with
  | [] => []
  | p :: sig' =>
      match arg_lookup args (pname p) with
      | Some v => (pname p, v) :: apply_defaults sig' args
      | None =>
          match default p with
          | Some d => (pname p, d) :: apply_defaults sig' args
          | None => apply_defaults sig' args
          end
      end
  end.

(** The loop over [bound.arguments.items()]. *)
Fixpoint check_arguments (sig : signature) (items : arguments) : result unit :=
  match items with
  | [] => Return tt
  | (name, v) :: rest =>
      if String.eqb name "self" then check_arguments sig rest
      else
        try p := sig_parameter sig name in
        match annotation p with
        | Some expected_type =>
            if negb (isinstance v expected_type) then Raise TypeError
            else check_arguments sig rest
        | None => check_arguments sig rest
        end
  end.

Section Methods.

(** What a method body can read and change besides its arguments. *)
Variable world : Type.

(** A method: its signature and its body, run on the bound arguments. *)
Record method : Type := Method
  { msig : signature;
    mbody : arguments -> world -> result value * world }.

(** A direct call of the method with positional and keyword arguments. *)
Definition call (m : method) (args : list value)
    (kwargs : gmap string value) (w : world) : result value * world :=
  match sig_bind (msig m) args kwargs with
  | Raise e => (Raise e, w)
  | Return b => mbody m (apply_defaults (msig m) b) w
  end.

(** The wrapper, called with [self], the positional and the keyword
    arguments: a keyword named [self] collides with
    the wrapper's own first parameter. *)
Definition wrapper (m : method) (self : value) (args : list value)
    (kwargs : gmap string value) (w : world) : result value * world :=
  match kwargs !! "self" with
  | Some _ => (Raise TypeError, w)
  | None =>
      match sig_bind (msig m) (self :: args) kwargs with
      | Raise e => (Raise e, w)
      | Return b =>
          let bound := apply_defaults (msig m) b in
          match check_arguments (msig m) bound with
          | Raise e => (Raise e, w)
          | Return _ => call m (self :: args) kwargs w
          end
      end
  end.

Definition enforce_types (m : method) :
    value -> list value -> gmap string value -> world -> result value * world :=
  wrapper m.

End Methods.

Arguments Method {world} msig mbody.
Arguments msig {world} m.
Arguments mbody {world} m.
Arguments call {world} m args kwargs w.
Arguments wrapper {world} m self args kwargs w.
Arguments enforce_types {world} m.

(** A [str] and an [int] object as values. *)
Definition py_str (n : nat) (s : string) : value := VScalar (Obj n (AStr s)).
Definition py_int (n : nat) (z : Z) : value := VScalar (Obj n (AInt z)).

(** ** The helpers as programs over the caller's objects *)

(** The arguments of a call are references.  A heap gives, for each
    location, the object that lives there; a list or a set can be changed in
    place by whoever holds a reference to it.  A program takes the heap and
    gives an outcome and the heap it leaves, or nothing when it has not
    finished within its fuel or follows a reference to no object. *)
Definition prog (A : Type) : Type :=
  gmap nat value -> option (result A * gmap nat value).

Definition ret {A : Type} (a : A) : prog A := fun h => Some (Return a, h).

Definition throw {A : Type} (e : exn) : prog A := fun h => Some (Raise e, h).

Definition lift {A : Type} (r : result A) : prog A := fun h => Some (r, h).

Definition pbind {A B : Type} (m : prog A) (k : A -> prog B) : prog B :=
  fun h =>
    match m h with
    | None => None
    | Some (Raise e, h') => Some (Raise e, h')
    | Some (Return a, h') => k a h'
    end.

Notation "'step' x ':=' m 'in' k" := (pbind m (fun x => k))
  (at level 10, x name, m at level 100, k at level 200).

(** Reading the object at a location. *)
Definition load (l : nat) : prog value :=
  fun h =>
    match h !! l with
    | Some v => Some (Return v, h)
    | None => None
    end.

(** [lst.clear()]: a program that does change the heap; none of the helpers
    has such a step. *)
Definition list_clear (l : nat) : prog unit :=
  fun h =>
    match h !! l with
    | Some (VList _) => Some (Return tt, <[l := VList []]> h)
    | Some _ => Some (Raise TypeError, h)
    | None => None
    end.

(** [iter(v)]: the items a loop over [v] visits.  A container gives its
    elements, a [str] its characters, a [bytes] its bytes as integers;
    another scalar is not iterable. *)
Definition items (v : value) : result (list value) :=
  match v with
  | VTuple xs | VList xs | VSet xs => Return (map VScalar xs)
  | VScalar (Obj _ (AStr s)) =>
      Return (map (fun c => VScalar (Obj 0 (AStr (String c ""))))
                  (list_ascii_of_string s))
  | VScalar (Obj _ (ABytes s)) =>
      Return (map (fun c => VScalar (Obj 0 (AInt (Z.of_N (N_of_ascii c)))))
                  (list_ascii_of_string s))
  | VScalar _ => Raise TypeError
  end.

Definition items_count (v : value) : nat :=
  match items v with
  | Return xs => List.length xs
  | Raise _ => 0%nat
  end.

(** The loop of [any]: one round for each item, at index [i] of the object
    at [l] as it is at that moment, up to the first true item or the end. *)
Fixpoint any_loop (fuel : nat) (l i : nat) : prog bool :=
  match fuel with
  | O => fun _ => None
  | S fuel' =>
      step v := load l in
      step xs := lift (items v) in
      match xs !! i with
      | None => ret false
      | Some x => if truthy x then ret true else any_loop fuel' l (S i)
      end
  end.

(** The loop of [sep.join]: every item has to be a [str]. *)
Fixpoint join_loop (fuel : nat) (sep : string) (l i : nat) (acc : string)
    : prog string :=
  match fuel with
  | O => fun _ => None
  | S fuel' =>
      step v := load l in
      step xs := lift (items v) in
      match xs !! i with
      | None => ret acc
      | Some x =>
          step s := lift (as_str x) in
          join_loop fuel' sep l (S i)
            (if Nat.eqb i 0 then s else acc ++ sep ++ s)
      end
  end.

(** The loop of [x in lst] on a list. *)
Fixpoint in_loop (fuel : nat) (x : obj) (l i : nat) : prog bool :=
  match fuel with
  | O => fun _ => None
  | S fuel' =>
      step v := load l in
      match v with
      | VList xs =>
          match xs !! i with
          | None => ret false
          | Some e =>
              if py_is x e || py_eq x e then ret true
              else in_loop fuel' x l (S i)
          end
      | _ => throw TypeError
      end
  end.

(** The loop that formats every element of a list for the message; [str] of
    a scalar raises nothing. *)
Fixpoint format_loop (fuel : nat) (l i : nat) : prog unit :=
  match fuel with
  | O => fun _ => None
  | S fuel' =>
      step v := load l in
      step xs := lift (items v) in
      match xs !! i with
      | None => ret tt
      | Some _ => format_loop fuel' l (S i)
      end
  end.

(** The matcher, one round for each item of the pattern. *)
Fixpoint match_steps (fuel : nat) (its : list re_item) (pos : nat)
    (rest : string) : option bool :=
  match fuel with
  | O => None
  | S fuel' =>
      match its with
      | [] => Some true
      | Bol :: k =>
          if Nat.eqb pos 0 then match_steps fuel' k pos rest else Some false
      | Eol :: k =>
          if String.eqb rest "" || String.eqb rest (String newline "")
          then match_steps fuel' k pos rest else Some false
      | Lit c :: k =>
          match rest with
          | String a r =>
              if Ascii.eqb a c then match_steps fuel' k (S pos) r
              else Some false
          | EmptyString => Some false
          end
      | Class rs :: k =>
          match rest with
          | String a r =>
              if in_class a rs then match_steps fuel' k (S pos) r
              else Some false
          | EmptyString => Some false
          end
      end
  end.

Definition re_match_steps (fuel : nat) (p : pattern) (v : value) : prog bool :=
  match v with
  | VScalar (Obj _ (AStr s)) =>
      fun h =>
        match match_steps fuel (expand p) 0 s with
        | Some m => Some (Return m, h)
        | None => None
        end
  | _ => throw TypeError
  end.

(** [param_exists(names, params)] on references. *)
Definition run_param_exists (fuel : nat) (names params : nat) : prog unit :=
  step found := any_loop fuel params 0 in
  if negb found then
    step msg := join_loop fuel ", " names 0 "" in throw ValueError
  else ret tt.

(** [validate_param(param, options)] with [options] a reference; [param] is
    a scalar, which nothing can change. *)
Definition run_validate_param (fuel : nat) (param : obj) (options : nat)
    : prog unit :=
  step v := load options in
  match v with
  | VTuple [start; stop] =>
      if atom_truthy (oval param) then
        step within := lift (chain_le (oval start) (oval param) (oval stop)) in
        if negb within then throw ValueError else ret tt
      else ret tt
  | VList _ =>
      step found := in_loop fuel param options 0 in
      if negb found then
        step msg := format_loop fuel options 0 in throw ValueError
      else ret tt
  | _ => ret tt
  end.

(** [validate_hex(color)] on a reference. *)
Definition run_validate_hex (fuel : nat) (color : nat) : prog unit :=
  step v := load color in
  step m := re_match_steps fuel hex_pattern v in
  if negb m then throw ValueError else ret tt.

(** [param_exists] on two objects of any kind, read once. *)
Definition param_exists_on (names params : value) : result unit :=
  try ps := items params in
  if negb (any ps) then
    try ns := items names in
    try msg := join ", " ns in Raise ValueError
  else Return tt.

(** Return, [ValueError] or [TypeError]. *)
Definition helper_outcome (r : result unit) : Prop :=
  r = Return tt \/ r = Raise ValueError \/ r = Raise TypeError.

(** A heap with two lists of names and values, a list of options and a
    colour. *)
Definition sample_heap : gmap nat value :=
  {[ 1%nat := VList [Obj 11 (AStr "image_path"); Obj 12 (AStr "image_url")];
     2%nat := VList [Obj 21 (AStr ""); Obj 22 (AStr "")];
     3%nat := VList [Obj 31 (AStr "svg"); Obj 32 (AStr "png")];
     4%nat := VScalar (Obj 41 (AStr "#a0b1c2")) ]}.

(** ** What the claims speak of *)

(** A hexadecimal digit, by its character code. *)
Definition is_hex_digit (c : ascii) : bool :=
  let n := N_of_ascii c in
  ((48 <=? n) && (n <=? 57) || (97 <=? n) && (n <=? 102)
   || (65 <=? n) && (n <=? 70))%N.

Fixpoint string_forall (f : ascii -> bool) (s : string) : bool :=
  match s with
  | EmptyString => true
  | String c t => f c && string_forall f t
  end.

(** Exactly a [#] followed by six hexadecimal digits. *)
Definition is_hex_color (s : string) : bool :=
  match s with
  | String c t =>
      Ascii.eqb c "#" && Nat.eqb (String.length t) 6
      && string_forall is_hex_digit t
  | EmptyString => false
  end.

(** Text, for [re]: a [str] or a [bytes]. *)
Definition is_text (v : value) : bool :=
  isinstance v TStr || isinstance v TBytes.

(** The declared types of [validate_param]: [param] is a [bool], an [int], a
    [float] or a [str]; a number is an [int] or a [float] ([bool] included,
    as a subclass of [int]). *)
Definition declared_param (a : atom) : bool :=
  match a with
  | ABool _ | AInt _ | AFloat _ | AStr _ => true
  | _ => false
  end.

Definition is_number (a : atom) : bool :=
  match as_num a with
  | Some _ => true
  | None => false
  end.

Definition declared_options (options : value) : bool :=
  match options with
  | VList xs => forallb (fun e => declared_param (oval e)) xs
  | VTuple [start; stop] => is_number (oval start) && is_number (oval stop)
  | _ => false
  end.

(** [p] lies between [start] and [stop], both included, as numbers. *)
Definition in_range (p start stop : atom) : bool :=
  match as_num start, as_num p, as_num stop with
  | Some a, Some x, Some b => num_leb a x && num_leb x b
  | _, _, _ => false
  end.

(** [p] is a member of the list: one of its elements is [p] or equals it. *)
Definition member (p : obj) (xs : list obj) : Prop :=
  exists e, In e xs /\ (py_is p e = true \/ py_eq p e = true).

(** A tuple of length 2. *)
Definition is_pair (options : value) : bool :=
  match options with
  | VTuple xs => Nat.eqb (List.length xs) 2
  | _ => false
  end.

(** The tuple [(start, stop)]. *)
Definition pair_of (start stop : obj) : value := VTuple [start; stop].

(** The range claim as the specification words it, at one input. *)
Definition range_claim (p start stop : obj) : Prop :=
  (in_range (oval p) (oval start) (oval stop) = false ->
   validate_param p (VTuple [start; stop]) = Raise ValueError)
  /\ (in_range (oval p) (oval start) (oval stop) = true ->
      validate_param p (VTuple [start; stop]) = Return tt).

(** The claim that only [ValueError] can come out, at one input. *)
Definition only_value_error (p : obj) (options : value) : Prop :=
  validate_param p options = Return tt
  \/ validate_param p options = Raise ValueError.

(** An argument bound to a parameter whose annotation it is not an instance
    of. *)
Definition annotated_mismatch (sig : signature) (item : string * value) : bool :=
  match sig_parameter sig (fst item) with
  | Return p =>
      match annotation p with
      | Some t => negb (isinstance (snd item) t)
      | None => false
      end
  | Raise _ => false
  end.

(** The same, for a parameter that is not named [self]. *)
Definition checked_mismatch (sig : signature) (item : string * value) : bool :=
  negb (String.eqb (fst item) "self") && annotated_mismatch sig item.



(** The type-enforcement claim as the specification words it, at one call
    that binds: a mismatch on any annotated parameter raises [TypeError] and
    leaves the world as it was, and without one the outcome is the body's. *)
Definition enforce_claim {world : Type} (m : method world) (self : value)
    (args : list value) (kwargs : gmap string value) (w : world) : Prop :=
  forall b, sig_bind (msig m) (self :: args) kwargs = Return b ->
  let bound := apply_defaults (msig m) b in
  (existsb (annotated_mismatch (msig m)) bound = true ->
   enforce_types m self args kwargs w = (Raise TypeError, w))
  /\ (existsb (annotated_mismatch (msig m)) bound = false ->
      enforce_types m self args kwargs w = mbody m bound w).

(** A method whose [self] carries an annotation; its body counts its runs. *)
Definition annotated_self : method nat :=
  Method [ MkParam "self" (Some TInt) None ]
         (fun _ w => (Return (VScalar (Obj 0 ANone)), S w)).

(** A method with an annotated and an unannotated parameter, both with
    defaults; its body counts its runs and returns [x]. *)
Definition sample_method : method nat :=
  Method [ MkParam "self" None None;
           MkParam "x" (Some TInt) None;
           MkParam "mode" (Some TStr) (Some (py_str 1 "production"));
           MkParam "extra" None (Some (VScalar (Obj 0 ANone))) ]
         (fun a w =>
            (match arg_lookup a "x" with
             | Some v => Return v
             | None => Raise KeyError
             end, S w)).

(** The receiver of the sample calls. *)
Definition client : value := VScalar (Obj 7 (AInst "VectorizerAI")).

(** The names of the parameters of a signature, in order. *)
Definition param_names (sig : signature) : list string := map pname sig.

(** A parameter the loop lets through whatever it is bound to: it is named
    [self] or has no annotation. *)
Definition plain_parameter (p : parameter) : bool :=
  String.eqb (pname p) "self"
  || match annotation p with
     | None => true
     | Some _ => false
     end.

(** An [int] object. *)
Definition int_obj (i : nat) (n : Z) : obj := Obj i (AInt n).

(** A method whose parameter [color] is annotated [str] and defaults to
    [None]; its body counts its runs. *)
Definition optional_color : method nat :=
  Method [ MkParam "self" None None;
           MkParam "color" (Some TStr) (Some (VScalar (Obj 0 ANone))) ]
         (fun _ w => (Return (VScalar (Obj 0 ANone)), S w)).

(** * Properties *)

(** ** [validate_hex] *)

Lemma in_hex_class (c : ascii) : in_class c hex_class = is_hex_digit c.
Proof. destruct c as [[] [] [] [] [] [] [] []]; reflexivity. Qed.

Lemma string_forall_ext (f g : ascii -> bool) (s : string) :
  (forall c, f c = g c) -> string_forall f s = string_forall g s.
Proof. intros E. induction s as [|c t IH]; simpl; [reflexivity|]. now rewrite E, IH. Qed.

(** A run of [n] characters of one class up to [$]: the text is such a run,
    or such a run and one newline. *)
Lemma match_class_run (rs : list (ascii * ascii)) (n pos : nat) (s : string) :
  match_here (repeat (Class rs) n ++ [Eol]) pos s = true <->
  exists h, (s = h \/ s = String.append h (String newline ""))
            /\ String.length h = n
            /\ string_forall (fun c => in_class c rs) h = true.
Proof.
  revert pos s. induction n as [|n IH]; intros pos s; simpl.
  - rewrite andb_true_r, orb_true_iff, !String.eqb_eq. split.
    + intros [-> | ->]; exists ""; simpl; auto.
    + intros (h & Hs & Hl & _). destruct h; [|discriminate].
      simpl in Hs. destruct Hs as [-> | ->]; auto.
  - destruct s as [|a r].
    + split; [discriminate|]. intros (h & Hs & Hl & _).
      destruct h; [discriminate|]. destruct Hs; discriminate.
    + rewrite andb_true_iff, IH. split.
      * intros (Ha & h & Hs & Hl & Hf). exists (String a h). simpl.
        rewrite Ha, Hf, Hl. repeat split; auto.
        destruct Hs as [-> | ->]; auto.
      * intros (h & Hs & Hl & Hf). destruct h as [|b h]; [discriminate|].
        simpl in *. apply andb_true_iff in Hf as [Hb Hf].
        assert (a = b /\ (r = h \/ r = String.append h (String newline ""))) as [-> Hr].
        { destruct Hs as [Hs | Hs]; injection Hs; auto. }
        split; [assumption|]. exists h. repeat split; auto.
Qed.

(** The strings the pattern accepts: a hex colour, or a hex colour and one
    newline after it. *)
Lemma hex_pattern_accepts (s : string) :
  match_here (expand hex_pattern) 0 s = true <->
  is_hex_color s = true
  \/ exists h, is_hex_color h = true /\ s = String.append h (String newline "").
Proof.
  change (expand hex_pattern)
    with (Bol :: Lit "#" :: (repeat (Class hex_class) 6 ++ [Eol])).
  cbn [match_here Nat.eqb andb].
  destruct s as [|c r].
  - split; [discriminate|]. intros [H | (h & H & E)]; [discriminate|].
    destruct h; discriminate.
  - rewrite andb_true_iff, match_class_run. split.
    + intros (Hc & h & Hs & Hl & Hf).
      rewrite (string_forall_ext _ _ h in_hex_class) in Hf.
      destruct Hs as [-> | ->].
      * left. simpl. now rewrite Hc, Hl, Hf.
      * right. exists (String c h). simpl. now rewrite Hc, Hl, Hf.
    + intros [H | (h & H & E)].
      * simpl in H. apply andb_true_iff in H as [H Hf].
        apply andb_true_iff in H as [Hc Hl]. apply Nat.eqb_eq in Hl.
        split; [assumption|]. exists r. repeat split; auto.
        now rewrite (string_forall_ext _ _ r in_hex_class).
      * destruct h as [|b h]; [discriminate|]. simpl in H, E.
        injection E as -> ->.
        apply andb_true_iff in H as [H Hf].
        apply andb_true_iff in H as [Hc Hl]. apply Nat.eqb_eq in Hl.
        split; [assumption|]. exists h. repeat split; auto.
        now rewrite (string_forall_ext _ _ h in_hex_class).
Qed.

Lemma validate_hex_str (n : nat) (s : string) :
  validate_hex (py_str n s)
  = if match_here (expand hex_pattern) 0 s then Return tt else Raise ValueError.
Proof.
  unfold validate_hex, py_str, re_match, bind.
  now destruct (match_here (expand hex_pattern) 0 s).
Qed.

(** What [validate_hex] lets through: the hex colours, and the hex colours
    with one newline appended. *)
Lemma validate_hex_returns (n : nat) (s : string) :
  validate_hex (py_str n s) = Return tt <->
  is_hex_color s = true
  \/ exists h, is_hex_color h = true /\ s = String.append h (String newline "").
Proof.
  rewrite validate_hex_str, <- hex_pattern_accepts.
  destruct (match_here (expand hex_pattern) 0 s); split; congruence.
Qed.

Lemma validate_hex_hex_color (n : nat) (s : string) :
  is_hex_color s = true -> validate_hex (py_str n s) = Return tt.
Proof. intros H. apply validate_hex_returns. now left. Qed.

(** C2: [validate_hex] is to raise [ValueError] on every string that is not
    exactly a [#] and six hexadecimal digits.  On ["#abcdef"] followed by a
    newline, which is not of that form, it returns: [$] also matches just
    before a final newline. *)
Theorem validate_hex_trailing_newline :
  is_hex_color (String.append "#abcdef" (String newline "")) = false
  /\ validate_hex (py_str 0 (String.append "#abcdef" (String newline "")))
     = Return tt.
Proof. split; reflexivity. Qed.

(** C9: on a value that is neither a [str] nor a [bytes], [validate_hex]
    raises [TypeError], not [ValueError]. *)
Theorem validate_hex_not_text (color : value) :
  is_text color = false -> validate_hex color = Raise TypeError.
Proof.
  unfold is_text, isinstance, issubclass.
  destruct color as [[i a] | xs | xs | xs]; try reflexivity.
  destruct a; try reflexivity; discriminate.
Qed.

Lemma validate_hex_not_text_witness :
  is_text (py_int 0 255) = false
  /\ validate_hex (py_int 0 255) = Raise TypeError.
Proof.
  split; [reflexivity | apply (validate_hex_not_text (py_int 0 255)); reflexivity].
Defined.

(** ** [validate_param] *)

Lemma chain_le_numbers (a x b : atom) (na nx nb : num) :
  as_num a = Some na -> as_num x = Some nx -> as_num b = Some nb ->
  chain_le a x b = Return (in_range x a b).
Proof.
  intros Ha Hx Hb. unfold chain_le, py_le, in_range, bind.
  rewrite Ha, Hx, Hb. now destruct (num_leb na nx).
Qed.

Lemma py_le_number_text (a : atom) (s : string) :
  is_number a = true -> py_le a (AStr s) = Raise TypeError.
Proof. unfold is_number. intros H. destruct a; try discriminate H; reflexivity. Qed.

(** The range branch on a number. *)
Lemma validate_param_pair_number (p start stop : obj) :
  is_number (oval p) = true ->
  is_number (oval start) = true -> is_number (oval stop) = true ->
  validate_param p (pair_of start stop)
  = if atom_truthy (oval p) && negb (in_range (oval p) (oval start) (oval stop))
    then Raise ValueError else Return tt.
Proof.
  unfold is_number, pair_of, validate_param. intros Hp Hs He.
  destruct (as_num (oval p)) as [np|] eqn:Ep; [|discriminate].
  destruct (as_num (oval start)) as [ns|] eqn:Es; [|discriminate].
  destruct (as_num (oval stop)) as [ne|] eqn:Ee; [|discriminate].
  rewrite (chain_le_numbers _ _ _ _ _ _ Es Ep Ee). simpl.
  destruct (atom_truthy (oval p)); [|reflexivity].
  now destruct (in_range (oval p) (oval start) (oval stop)).
Qed.

(** The range branch on a value that is false, and on a non-empty [str]. *)
Lemma validate_param_pair_falsy (p start stop : obj) :
  atom_truthy (oval p) = false ->
  validate_param p (pair_of start stop) = Return tt.
Proof. intros Hf. unfold pair_of, validate_param. now rewrite Hf. Qed.

Lemma validate_param_pair_text (p start stop : obj) :
  declared_param (oval p) = true -> is_number (oval start) = true ->
  atom_truthy (oval p) = true -> is_number (oval p) = false ->
  validate_param p (pair_of start stop) = Raise TypeError.
Proof.
  intros Hd Hs Ht Hn. unfold pair_of, validate_param. rewrite Ht.
  destruct (oval p) eqn:Ep; try discriminate.
  unfold chain_le. now rewrite py_le_number_text.
Qed.

(** The range branch as it is written: against a pair of numbers, a [param] that is
    false ([False], [0], [0.0], the empty [str]) passes whatever the range;
    a true number passes when it lies in the range and raises [ValueError]
    when it does not; a non-empty [str] raises [TypeError]. *)
Theorem validate_param_range (p start stop : obj) :
  declared_param (oval p) = true ->
  is_number (oval start) = true -> is_number (oval stop) = true ->
  (atom_truthy (oval p) = false ->
   validate_param p (pair_of start stop) = Return tt)
  /\ (atom_truthy (oval p) = true -> is_number (oval p) = true ->
      (in_range (oval p) (oval start) (oval stop) = false ->
       validate_param p (pair_of start stop) = Raise ValueError)
      /\ (in_range (oval p) (oval start) (oval stop) = true ->
          validate_param p (pair_of start stop) = Return tt))
  /\ (atom_truthy (oval p) = true -> is_number (oval p) = false ->
      validate_param p (pair_of start stop) = Raise TypeError).
Proof.
  intros Hd Hs He. split; [|split].
  - apply validate_param_pair_falsy.
  - intros Ht Hn. rewrite validate_param_pair_number by assumption.
    split; intros ->; [now rewrite Ht | now rewrite andb_false_r].
  - now apply validate_param_pair_text.
Qed.

Lemma validate_param_range_witness :
  validate_param (Obj 0 (AInt 11)) (pair_of (Obj 1 (AInt 1)) (Obj 2 (AInt 10)))
  = Raise ValueError.
Proof.
  apply (validate_param_range (Obj 0 (AInt 11)) (Obj 1 (AInt 1)) (Obj 2 (AInt 10)));
    reflexivity.
Defined.

(** The range claim fails at [0] against the range 1 to 10. *)
Lemma validate_param_range_zero :
  declared_param (AInt 0) = true
  /\ is_number (AInt 1) = true /\ is_number (AInt 10) = true
  /\ ~ range_claim (Obj 0 (AInt 0)) (Obj 1 (AInt 1)) (Obj 2 (AInt 10)).
Proof.
  repeat split. intros [H _].
  specialize (H eq_refl). discriminate H.
Qed.

(** C1: [validate_param] is to raise [ValueError] on a [param] outside the
    range.  On [0] against the range 1 to 10 it returns: the test
    [param and ...] passes over a false [param] without comparing it.  The
    list branch has no such test, and raises on [0] against the list
    [[1, 10]]. *)
Theorem validate_param_zero_passes :
  in_range (AInt 0) (AInt 1) (AInt 10) = false
  /\ validate_param (Obj 0 (AInt 0)) (pair_of (Obj 1 (AInt 1)) (Obj 2 (AInt 10)))
     = Return tt
  /\ validate_param (Obj 0 (AInt 0)) (VList [Obj 1 (AInt 1); Obj 2 (AInt 10)])
     = Raise ValueError.
Proof. split; [|split]; reflexivity. Qed.

(** X19: on integers the range branch reads: [validate_param] returns
    exactly when the value is zero or lies between the bounds. *)
Lemma validate_param_int_range (i j k : nat) (n a b : Z) :
  validate_param (Obj i (AInt n)) (pair_of (Obj j (AInt a)) (Obj k (AInt b)))
  = Return tt
  <-> n = 0 \/ a <= n <= b.
Proof.
  rewrite validate_param_pair_number by reflexivity.
  unfold in_range, num_leb, num_compare. simpl.
  destruct (Z.eqb_spec n 0) as [-> | Hn]; simpl.
  - split; auto.
  - destruct (Z.compare_spec a n), (Z.compare_spec n b); simpl;
      split; try congruence; try lia; intros _; right; lia.
Qed.

(** Identity matters for a NaN only, which equals nothing, itself included:
    the very same object is found in a list, another NaN is not. *)
Example validate_param_same_nan :
  validate_param (Obj 0 (AFloat S754_nan)) (VList [Obj 0 (AFloat S754_nan)])
  = Return tt.
Proof. reflexivity. Qed.

Example validate_param_other_nan :
  validate_param (Obj 0 (AFloat S754_nan)) (VList [Obj 1 (AFloat S754_nan)])
  = Raise ValueError.
Proof. reflexivity. Qed.

(** For a [param] that equals itself, and identities that name one object
    each, membership is equality with some element. *)
Lemma member_by_equality (p : obj) (xs : list obj) :
  (forall e, In e xs -> oid p = oid e -> oval p = oval e) ->
  py_eq p p = true ->
  member p xs <-> exists e, In e xs /\ py_eq p e = true.
Proof.
  intros Hid Hrefl. unfold member. split; intros (e & He & H).
  - exists e. split; [assumption|]. destruct H as [H | H]; [|assumption].
    apply Nat.eqb_eq in H. pose proof (Hid e He H) as Hv.
    destruct p as [i a], e as [j b]. simpl in H, Hv. now subst.
  - exists e. auto.
Qed.

(** C5: against a list, [validate_param] raises [ValueError] exactly when
    [param] is not a member of the list, and returns when it is one. *)
Theorem validate_param_list (p : obj) (xs : list obj) :
  (validate_param p (VList xs) = Raise ValueError <-> ~ member p xs)
  /\ (member p xs -> validate_param p (VList xs) = Return tt).
Proof.
  assert (py_in p xs = true <-> member p xs) as Hin.
  { unfold py_in, member. rewrite existsb_exists.
    split; intros (e & He & H); exists e; split; auto.
    - now apply orb_true_iff in H.
    - now apply orb_true_iff. }
  unfold validate_param. destruct (py_in p xs) eqn:E; simpl.
  - assert (member p xs) by now apply Hin.
    repeat split; auto; try discriminate. intros Hn. contradiction.
  - assert (~ member p xs) by (intros Hm; apply Hin in Hm; discriminate).
    repeat split; auto. intros Hm. contradiction.
Qed.

Lemma validate_param_list_witness :
  validate_param (Obj 0 (AStr "svg"))
    (VList [Obj 1 (AStr "png"); Obj 2 (AStr "svg")]) = Return tt.
Proof.
  apply (validate_param_list (Obj 0 (AStr "svg"))
           [Obj 1 (AStr "png"); Obj 2 (AStr "svg")]).
  exists (Obj 2 (AStr "svg")). split; [simpl; auto | right; reflexivity].
Defined.

(** C8: when [options] is neither a list nor a tuple of length 2, nothing is
    checked and [validate_param] returns. *)
Theorem validate_param_other_options (p : obj) (options : value) :
  isinstance options TList = false -> is_pair options = false ->
  validate_param p options = Return tt.
Proof.
  destruct options as [o | xs | xs | xs]; try reflexivity.
  - intros _ Hp. simpl in Hp.
    destruct xs as [|a [|b [|c xs]]]; try reflexivity. discriminate.
  - discriminate.
Qed.

Lemma validate_param_other_options_witness :
  validate_param (Obj 0 (AInt 7))
    (VTuple [Obj 1 (AInt 1); Obj 2 (AInt 2); Obj 3 (AInt 3)]) = Return tt
  /\ validate_param (Obj 0 (AInt 7)) (VSet [Obj 1 (AInt 1)]) = Return tt
  /\ validate_param (Obj 0 (AInt 7)) (py_int 1 1) = Return tt.
Proof.
  split; [|split].
  - apply (validate_param_other_options (Obj 0 (AInt 7))
             (VTuple [Obj 1 (AInt 1); Obj 2 (AInt 2); Obj 3 (AInt 3)]));
      reflexivity.
  - apply (validate_param_other_options (Obj 0 (AInt 7))
             (VSet [Obj 1 (AInt 1)])); reflexivity.
  - apply (validate_param_other_options (Obj 0 (AInt 7)) (py_int 1 1));
      reflexivity.
Defined.

(** C6, as the code has it: on arguments of the declared types the outcome is
    a return or a [ValueError], except that a non-empty [str] checked against
    a pair of numbers raises [TypeError]. *)
Theorem validate_param_declared (p : obj) (options : value) :
  declared_param (oval p) = true -> declared_options options = true ->
  if is_pair options && atom_truthy (oval p) && negb (is_number (oval p))
  then validate_param p options = Raise TypeError
  else only_value_error p options.
Proof.
  intros Hd Ho. unfold only_value_error.
  destruct options as [o | xs | xs | xs]; try discriminate Ho.
  - destruct xs as [|start [|stop [|c xs]]]; try discriminate Ho.
    simpl in Ho. apply andb_true_iff in Ho as [Hs He].
    change (VTuple [start; stop]) with (pair_of start stop).
    change (is_pair (pair_of start stop)) with true.
    destruct (atom_truthy (oval p)) eqn:Ht; cbn [andb].
    + destruct (is_number (oval p)) eqn:Hn; cbn [andb negb].
      * rewrite validate_param_pair_number, Ht by assumption.
        destruct (in_range (oval p) (oval start) (oval stop)); auto.
      * now apply validate_param_pair_text.
    + left. now apply validate_param_pair_falsy.
  - simpl. unfold validate_param. destruct (py_in p xs); simpl; auto.
Qed.

Lemma validate_param_declared_witness :
  validate_param (Obj 0 (AStr "svg")) (pair_of (Obj 1 (AInt 1)) (Obj 2 (AInt 2)))
  = Raise TypeError.
Proof.
  exact (validate_param_declared (Obj 0 (AStr "svg"))
           (pair_of (Obj 1 (AInt 1)) (Obj 2 (AInt 2))) eq_refl eq_refl).
Defined.

(** C6 as worded fails: a non-empty [str] against the pair (1, 2) raises
    [TypeError]. *)
Lemma validate_param_type_error :
  declared_param (AStr "a") = true
  /\ declared_options (pair_of (Obj 1 (AInt 1)) (Obj 2 (AInt 2))) = true
  /\ ~ only_value_error (Obj 0 (AStr "a"))
         (pair_of (Obj 1 (AInt 1)) (Obj 2 (AInt 2))).
Proof.
  split; [reflexivity|]. split; [reflexivity|].
  intros [H | H]; discriminate H.
Qed.

(** ** [param_exists] *)

Lemma any_false (params : list value) :
  any params = false <-> forall v, In v params -> truthy v = false.
Proof.
  unfold any. induction params as [|x xs IH]; simpl.
  - split; [intros _ v [] | reflexivity].
  - rewrite orb_false_iff, IH. split.
    + intros [Hx Hxs] v [<- | Hv]; auto.
    + intros H. split; [apply H; now left | intros v Hv; apply H; now right].
Qed.

Lemma join_names (sep : string) (names : list value) :
  forallb (fun v => isinstance v TStr) names = true ->
  exists s, join sep names = Return s.
Proof.
  induction names as [|x xs IH]; simpl; [now exists ""|].
  intros H. apply andb_true_iff in H as [Hx Hxs].
  destruct x as [[i a] | ? | ? | ?]; try discriminate Hx.
  destruct a; try discriminate Hx. simpl.
  destruct xs as [|y ys]; [now exists s|].
  destruct (IH Hxs) as [t ->]. simpl. now eexists.
Qed.

(** C3: with names that are strings, [param_exists] raises [ValueError]
    exactly when no value in [params] is true (non-empty), and returns as
    soon as one is. *)
Theorem param_exists_spec (names params : list value) :
  forallb (fun v => isinstance v TStr) names = true ->
  (param_exists names params = Raise ValueError <->
   forall v, In v params -> truthy v = false)
  /\ ((exists v, In v params /\ truthy v = true) ->
      param_exists names params = Return tt).
Proof.
  intros Hn. destruct (join_names ", " names Hn) as [msg Hj].
  unfold param_exists. rewrite Hj. simpl.
  rewrite <- any_false. destruct (any params) eqn:E; simpl.
  - split; [split; discriminate | reflexivity].
  - split; [split; reflexivity |].
    intros (v & Hv & Ht). rewrite any_false in E.
    rewrite (E v Hv) in Ht. discriminate Ht.
Qed.

Lemma param_exists_spec_witness :
  param_exists [py_str 0 "image_path"; py_str 1 "image_url"]
    [py_str 2 ""; py_str 3 "https://example.com/a.png"] = Return tt.
Proof.
  apply (param_exists_spec [py_str 0 "image_path"; py_str 1 "image_url"]
           [py_str 2 ""; py_str 3 "https://example.com/a.png"]).
  - reflexivity.
  - exists (py_str 3 "https://example.com/a.png").
    split; [simpl; auto | reflexivity].
Defined.

(** ** Totality *)

Lemma join_outcome (sep : string) (xs : list value) :
  (exists s, join sep xs = Return s) \/ join sep xs = Raise TypeError.
Proof.
  induction xs as [|x xs IH]; simpl; [left; now exists ""|].
  destruct x as [[i a] | ? | ? | ?]; simpl; auto.
  destruct a; simpl; auto.
  destruct xs as [|y ys]; [left; now eexists|].
  destruct IH as [[t ->] | ->]; simpl; [left; now eexists | now right].
Qed.

Lemma py_le_outcome (a b : atom) :
  (exists r, py_le a b = Return r) \/ py_le a b = Raise TypeError.
Proof.
  unfold py_le. destruct (as_num a), (as_num b); eauto;
    destruct a; eauto; destruct b; eauto.
Qed.

Lemma chain_le_outcome (a b c : atom) :
  (exists r, chain_le a b c = Return r) \/ chain_le a b c = Raise TypeError.
Proof.
  unfold chain_le.
  destruct (py_le_outcome a b) as [[r ->] | ->]; simpl; auto.
  destruct r; [apply py_le_outcome | eauto].
Qed.

(** The outcomes of the helpers: a return, a [ValueError] or a
    [TypeError]. *)
Theorem helpers_total (names params : list value) (p : obj)
    (options color : value) :
  (param_exists names params = Return tt
   \/ param_exists names params = Raise ValueError
   \/ param_exists names params = Raise TypeError)
  /\ (validate_param p options = Return tt
      \/ validate_param p options = Raise ValueError
      \/ validate_param p options = Raise TypeError)
  /\ (validate_hex color = Return tt
      \/ validate_hex color = Raise ValueError
      \/ validate_hex color = Raise TypeError).
Proof.
  split; [|split].
  - unfold param_exists. destruct (any params); simpl; auto.
    destruct (join_outcome ", " names) as [[s ->] | ->]; simpl; auto.
  - unfold validate_param.
    destruct options as [o | xs | xs | xs]; auto.
    + destruct xs as [|start [|stop [|c xs]]]; auto.
      destruct (atom_truthy (oval p)); auto.
      destruct (chain_le_outcome (oval start) (oval p) (oval stop))
        as [[r ->] | ->]; simpl; auto.
      destruct r; simpl; auto.
    + destruct (py_in p xs); simpl; auto.
  - unfold validate_hex.
    destruct (re_match hex_pattern color) as [m | e] eqn:E; simpl.
    + destruct m; simpl; auto.
    + right; right. destruct color as [[i a] | ? | ? | ?]; simpl in E;
        try (destruct a); congruence.
Qed.

(** ** [enforce_types] *)

Lemma sig_parameter_found (sig : signature) (p : parameter) :
  In p sig -> exists q, sig_parameter sig (pname p) = Return q.
Proof.
  induction sig as [|q sig IH]; simpl; [intros []|].
  intros [-> | Hp].
  - rewrite String.eqb_refl. now eexists.
  - destruct (String.eqb (pname q) (pname p)); [now eexists | auto].
Qed.

(** After [apply_defaults], every bound name is the name of a parameter. *)
Lemma apply_defaults_names (sig : signature) (b : arguments) (item : string * value) :
  In item (apply_defaults sig b) -> exists p, In p sig /\ pname p = fst item.
Proof.
  induction sig as [|q sig IH]; simpl; [intros []|].
  assert (In item (apply_defaults sig b) ->
          exists p, (q = p \/ In p sig) /\ pname p = fst item) as Hrest.
  { intros H. destruct (IH H) as (p & Hp & E). exists p. auto. }
  destruct (arg_lookup b (pname q)) as [v|].
  - intros [<- | H]; [exists q; auto | auto].
  - destruct (default q) as [d|]; [|assumption].
    intros [<- | H]; [exists q; auto | auto].
Qed.


(** The loop over bound names of the signature: it raises [TypeError] when
    some checked argument mismatches and returns otherwise. *)
Lemma check_arguments_spec (sig : signature) (items : arguments) :
  (forall item, In item items -> exists p, In p sig /\ pname p = fst item) ->
  check_arguments sig items
  = if existsb (checked_mismatch sig) items then Raise TypeError else Return tt.
Proof.
  induction items as [|[name v] rest IH]; [reflexivity|].
  intros Hn. cbn [check_arguments existsb].
  rewrite IH by (intros item Hi; apply Hn; now right).
  assert (checked_mismatch sig (name, v)
          = negb (String.eqb name "self") && annotated_mismatch sig (name, v))
    as -> by reflexivity.
  destruct (String.eqb name "self"); [reflexivity|].
  destruct (Hn (name, v) (or_introl eq_refl)) as (p & Hp & E). simpl in E.
  destruct (sig_parameter_found sig p Hp) as [q Hq]. rewrite E in Hq.
  unfold annotated_mismatch. cbn [fst snd negb andb]. rewrite Hq.
  cbn [bind]. destruct (annotation q) as [t|]; [|reflexivity].
  now destruct (isinstance v t).
Qed.

(** C4, as the code has it: on a call that binds, an argument that is not an
    instance of the annotation of its parameter, for a parameter other than
    [self], makes the wrapper raise [TypeError] with the body not run; with
    no such argument the outcome is that of the body on the bound
    arguments. *)
Theorem enforce_types_spec {world : Type} (m : method world) (self : value)
    (args : list value) (kwargs : gmap string value) (w : world)
    (b : arguments) :
  kwargs !! "self" = None ->
  sig_bind (msig m) (self :: args) kwargs = Return b ->
  (existsb (checked_mismatch (msig m)) (apply_defaults (msig m) b) = true ->
   enforce_types m self args kwargs w = (Raise TypeError, w))
  /\ (existsb (checked_mismatch (msig m)) (apply_defaults (msig m) b) = false ->
      enforce_types m self args kwargs w
      = mbody m (apply_defaults (msig m) b) w).
Proof.
  intros Hk Hb. unfold enforce_types, wrapper, call. rewrite Hk, Hb.
  rewrite check_arguments_spec by apply apply_defaults_names.
  split; intros ->; reflexivity.
Qed.

Lemma enforce_types_spec_witness :
  enforce_types sample_method client [py_str 2 "12"] ∅ 0%nat
  = (Raise TypeError, 0%nat).
Proof.
  apply (enforce_types_spec sample_method client [py_str 2 "12"] ∅ 0%nat
           [("self", client); ("x", py_str 2 "12")]); reflexivity.
Defined.

(** C4 as worded fails: [self] is bound to a parameter annotated [int], the
    receiver is no [int], and the body runs. *)
Lemma enforce_types_annotated_self :
  ~ enforce_claim annotated_self client [] ∅ 0%nat.
Proof.
  intros H. destruct (H [("self", client)] eq_refl) as [Hraise _].
  specialize (Hraise eq_refl). discriminate Hraise.
Qed.

(** Binding fails with [TypeError] only. *)
Lemma sig_bind_raises (sig : signature) (args : list value)
    (kwargs : gmap string value) (e : exn) :
  sig_bind sig args kwargs = Raise e -> e = TypeError.
Proof.
  revert args kwargs. induction sig as [|p sig IH]; intros args kwargs; simpl.
  - destruct args; [|congruence]. case_bool_decide; congruence.
  - destruct args as [|a args]; destruct (kwargs !! pname p) as [v|];
      try congruence.
    + destruct (sig_bind sig [] (delete (pname p) kwargs)) eqn:E; simpl;
        [discriminate | intros [= <-]; eauto].
    + destruct (default p); [apply IH | congruence].
    + destruct (sig_bind sig args kwargs) eqn:E; simpl;
        [discriminate | intros [= <-]; eauto].
Qed.

(** X20: a call that does not bind (too many positional arguments, an
    unknown keyword, a missing argument, two values for one parameter)
    raises [TypeError] with the body not run, as the direct call of the
    method does. *)
Lemma enforce_types_unbound {world : Type} (m : method world) (self : value)
    (args : list value) (kwargs : gmap string value) (w : world) (e : exn) :
  sig_bind (msig m) (self :: args) kwargs = Raise e ->
  enforce_types m self args kwargs w = (Raise TypeError, w)
  /\ call m (self :: args) kwargs w = (Raise TypeError, w).
Proof.
  intros Hb. pose proof (sig_bind_raises _ _ _ _ Hb) as ->.
  unfold enforce_types, wrapper, call. rewrite Hb.
  now destruct (kwargs !! "self").
Qed.



(** * Further properties of the helpers *)

(** ** [validate_hex] on every value *)

Lemma append_length (s t : string) :
  String.length (String.append s t) = (String.length s + String.length t)%nat.
Proof. induction s as [|c s IH]; simpl; [reflexivity | now rewrite IH]. Qed.

Lemma is_hex_color_length (s : string) :
  is_hex_color s = true -> String.length s = 7%nat.
Proof.
  destruct s as [|c t]; simpl; [discriminate|]. intros H.
  apply andb_true_iff in H as [H _]. apply andb_true_iff in H as [_ H].
  apply Nat.eqb_eq in H. now rewrite H.
Qed.

Lemma re_match_text (p : pattern) (v : value) :
  (exists i s, v = py_str i s /\ re_match p v = Return (match_here (expand p) 0 s))
  \/ (isinstance v TStr = false /\ re_match p v = Raise TypeError).
Proof.
  destruct v as [[i a] | xs | xs | xs]; try (right; split; reflexivity).
  destruct a; try (right; split; reflexivity).
  left. exists i, s. split; reflexivity.
Qed.

(** X1: the values [validate_hex] returns on are the [str] objects that
    hold a hex colour, or a hex colour and one newline after it; nothing
    else is let through. *)
Theorem validate_hex_accepted (color : value) :
  validate_hex color = Return tt <->
  exists i s, color = py_str i s
    /\ (is_hex_color s = true
        \/ exists h, is_hex_color h = true
                     /\ s = String.append h (String newline "")).
Proof.
  split.
  - intros H. destruct (re_match_text hex_pattern color)
      as [(i & s & -> & _) | [_ E]].
    + exists i, s. split; [reflexivity|]. now apply (validate_hex_returns i s).
    + unfold validate_hex in H. rewrite E in H. discriminate H.
  - intros (i & s & -> & H). now apply validate_hex_returns.
Qed.

(** X2: a [str] whose length is neither 7 nor 8 is rejected with
    [ValueError]: the short form of three digits and the form with an alpha
    channel are not hex colours here. *)
Theorem validate_hex_wrong_length (i : nat) (s : string) :
  String.length s <> 7%nat -> String.length s <> 8%nat ->
  validate_hex (py_str i s) = Raise ValueError.
Proof.
  intros H7 H8. rewrite validate_hex_str.
  destruct (match_here (expand hex_pattern) 0 s) eqn:E; [|reflexivity].
  apply hex_pattern_accepts in E as [E | (h & E & ->)].
  - apply is_hex_color_length in E. contradiction.
  - apply is_hex_color_length in E. rewrite append_length, E in H8.
    now contradiction H8.
Qed.

Lemma validate_hex_wrong_length_witness :
  validate_hex (py_str 0 "#fff") = Raise ValueError
  /\ validate_hex (py_str 0 "#11223344") = Raise ValueError.
Proof.
  split.
  - apply (validate_hex_wrong_length 0 "#fff"); simpl; lia.
  - apply (validate_hex_wrong_length 0 "#11223344"); simpl; lia.
Defined.

(** X3: [validate_hex] raises [TypeError] exactly on the values that are not
    a [str]; a [bytes] value is one of them. *)
Theorem validate_hex_type_error (color : value) :
  validate_hex color = Raise TypeError <-> isinstance color TStr = false.
Proof.
  destruct (re_match_text hex_pattern color) as [(i & s & -> & _) | [H E]].
  - rewrite validate_hex_str.
    split; [|discriminate].
    destruct (match_here (expand hex_pattern) 0 s); discriminate.
  - unfold validate_hex. rewrite E. simpl. split; auto.
Qed.

(** ** More on [validate_param] *)

Lemma py_in_member (p : obj) (xs : list obj) :
  py_in p xs = true <-> member p xs.
Proof.
  unfold py_in, member. rewrite existsb_exists.
  split; intros (e & He & H); exists e; split; auto.
  - now apply orb_true_iff in H.
  - now apply orb_true_iff.
Qed.

Lemma validate_param_list_returns (p : obj) (xs : list obj) :
  validate_param p (VList xs) = Return tt <-> py_in p xs = true.
Proof.
  unfold validate_param. destruct (py_in p xs); simpl; split; congruence.
Qed.

(** Nothing is below or equal to a NaN. *)
Lemma num_leb_nan (a : num) : num_leb a (NF S754_nan) = false.
Proof. destruct a as [n | f]; [reflexivity | now destruct f]. Qed.

(** X4: a NaN never passes a range check: whatever the second bound is, a
    numeric first bound makes [validate_param] raise [ValueError]. *)
Theorem validate_param_nan (i : nat) (start stop : obj) :
  is_number (oval start) = true ->
  validate_param (Obj i (AFloat S754_nan)) (pair_of start stop)
  = Raise ValueError.
Proof.
  unfold is_number, pair_of, validate_param, chain_le, py_le. simpl.
  destruct (as_num (oval start)) as [a|]; [|discriminate].
  intros _. now rewrite num_leb_nan.
Qed.

Lemma validate_param_nan_witness :
  validate_param (Obj 0 (AFloat S754_nan))
    (pair_of (int_obj 1 0) (Obj 2 (AStr "max"))) = Raise ValueError.
Proof.
  apply (validate_param_nan 0 (int_obj 1 0) (Obj 2 (AStr "max"))).
  reflexivity.
Defined.

(** An integer bound against a float, when the integer moves. *)
Lemma Z_SF_compare_le_mono (a a' : Z) (f : spec_float) :
  a' <= a ->
  match Z_SF_compare a f with Some (Lt | Eq) => True | _ => False end ->
  match Z_SF_compare a' f with Some (Lt | Eq) => True | _ => False end.
Proof.
  intros Hle. destruct f as [s | s | | s m e]; simpl; auto.
  - destruct (Z.compare_spec a 0), (Z.compare_spec a' 0); auto; lia.
  - destruct (0 <=? e).
    + destruct (Z.compare_spec a ((if s then Z.neg m else Z.pos m) * 2 ^ e)),
        (Z.compare_spec a' ((if s then Z.neg m else Z.pos m) * 2 ^ e));
        auto; lia.
    + assert (a' * 2 ^ (- e) <= a * 2 ^ (- e))
        by (apply Z.mul_le_mono_nonneg_r; [apply Z.pow_nonneg |]; lia).
      destruct (Z.compare_spec (a * 2 ^ (- e)) (if s then Z.neg m else Z.pos m)),
        (Z.compare_spec (a' * 2 ^ (- e)) (if s then Z.neg m else Z.pos m));
        auto; lia.
Qed.

Lemma Z_SF_compare_ge_mono (b b' : Z) (f : spec_float) :
  b <= b' ->
  match Z_SF_compare b f with Some (Gt | Eq) => True | _ => False end ->
  match Z_SF_compare b' f with Some (Gt | Eq) => True | _ => False end.
Proof.
  intros Hle. destruct f as [s | s | | s m e]; simpl; auto.
  - destruct (Z.compare_spec b 0), (Z.compare_spec b' 0); auto; lia.
  - destruct (0 <=? e).
    + destruct (Z.compare_spec b ((if s then Z.neg m else Z.pos m) * 2 ^ e)),
        (Z.compare_spec b' ((if s then Z.neg m else Z.pos m) * 2 ^ e));
        auto; lia.
    + assert (b * 2 ^ (- e) <= b' * 2 ^ (- e))
        by (apply Z.mul_le_mono_nonneg_r; [apply Z.pow_nonneg |]; lia).
      destruct (Z.compare_spec (b * 2 ^ (- e)) (if s then Z.neg m else Z.pos m)),
        (Z.compare_spec (b' * 2 ^ (- e)) (if s then Z.neg m else Z.pos m));
        auto; lia.
Qed.

Lemma num_leb_lower_mono (a a' : Z) (x : num) :
  a' <= a -> num_leb (NZ a) x = true -> num_leb (NZ a') x = true.
Proof.
  intros Hle. unfold num_leb. destruct x as [n | f]; simpl.
  - destruct (Z.compare_spec a n), (Z.compare_spec a' n);
      auto; try discriminate; lia.
  - pose proof (Z_SF_compare_le_mono a a' f Hle) as H.
    destruct (Z_SF_compare a f) as [[]|], (Z_SF_compare a' f) as [[]|];
      auto; try discriminate; intros _; exfalso; now apply H.
Qed.

Lemma num_leb_upper_mono (b b' : Z) (x : num) :
  b <= b' -> num_leb x (NZ b) = true -> num_leb x (NZ b') = true.
Proof.
  intros Hle. unfold num_leb. destruct x as [n | f]; simpl.
  - destruct (Z.compare_spec n b), (Z.compare_spec n b');
      auto; try discriminate; lia.
  - pose proof (Z_SF_compare_ge_mono b b' f Hle) as H.
    destruct (Z_SF_compare b f) as [[]|], (Z_SF_compare b' f) as [[]|];
      simpl; auto; try discriminate; intros _; exfalso; now apply H.
Qed.

Lemma in_range_widen (x : atom) (a a' b b' : Z) :
  a' <= a -> b <= b' ->
  in_range x (AInt a) (AInt b) = true -> in_range x (AInt a') (AInt b') = true.
Proof.
  intros Ha Hb. unfold in_range. simpl.
  destruct (as_num x) as [n|]; [|discriminate].
  intros H. apply andb_true_iff in H as [H1 H2]. apply andb_true_iff. split.
  - now apply (num_leb_lower_mono a).
  - now apply (num_leb_upper_mono b).
Qed.

Lemma validate_param_pair_unordered (p start stop : obj) :
  is_number (oval start) = true -> is_number (oval p) = false ->
  atom_truthy (oval p) = true ->
  validate_param p (pair_of start stop) = Raise TypeError.
Proof.
  unfold is_number, pair_of, validate_param, chain_le, py_le.
  intros Hs Hp ->.
  destruct (oval start); try discriminate Hs;
    destruct (oval p); try discriminate Hp; reflexivity.
Qed.

(** X5: widening a range of integer bounds keeps what it let through, for
    an [int], a [bool] or a [float] alike. *)
Theorem validate_param_widen (p : obj) (j k j' k' : nat) (a a' b b' : Z) :
  a' <= a -> b <= b' ->
  validate_param p (pair_of (int_obj j a) (int_obj k b)) = Return tt ->
  validate_param p (pair_of (int_obj j' a') (int_obj k' b')) = Return tt.
Proof.
  intros Ha Hb.
  destruct (atom_truthy (oval p)) eqn:Ht;
    [|intros _; now apply validate_param_pair_falsy].
  destruct (is_number (oval p)) eqn:Hn.
  - rewrite !validate_param_pair_number, Ht by (assumption || reflexivity).
    simpl. destruct (in_range (oval p) (AInt a) (AInt b)) eqn:E;
      [|discriminate].
    now rewrite (in_range_widen _ a a' b b' Ha Hb E).
  - rewrite validate_param_pair_unordered by (assumption || reflexivity).
    discriminate.
Qed.

Lemma validate_param_widen_witness :
  validate_param (Obj 0 (AFloat (S754_finite false 3 (-1))))
    (pair_of (int_obj 1 0) (int_obj 2 256)) = Return tt.
Proof.
  apply (validate_param_widen (Obj 0 (AFloat (S754_finite false 3 (-1))))
           1 2 1 2 1 0 2 256); [lia | lia | reflexivity].
Defined.

(** X6: a [bool] is validated as the integer it stands for: [True] as 1 and
    [False] as 0, against any [options]. *)
Theorem validate_param_bool_as_int (i : nat) (b : bool) (options : value) :
  validate_param (Obj i (ABool b)) options
  = validate_param (Obj i (AInt (if b then 1 else 0))) options.
Proof.
  assert (forall x, py_le x (ABool b) = py_le x (AInt (if b then 1 else 0)))
    as Hle1 by (intros x; unfold py_le; simpl; now destruct x).
  assert (forall y, py_le (ABool b) y = py_le (AInt (if b then 1 else 0)) y)
    as Hle2 by (intros y; unfold py_le; simpl; now destruct y).
  destruct options as [o | xs | xs | xs]; try reflexivity.
  destruct xs as [|start [|stop [|c xs]]]; try reflexivity.
  unfold validate_param, chain_le. cbn [oval].
  rewrite Hle1, Hle2. now destruct b.
Qed.

(** X7: against a list, only the elements count, not their order or how
    often they occur. *)
Theorem validate_param_list_same_elements (p : obj) (xs ys : list obj) :
  (forall e, In e xs <-> In e ys) ->
  validate_param p (VList xs) = validate_param p (VList ys).
Proof.
  intros H.
  assert (py_in p xs = py_in p ys) as E.
  { apply eq_true_iff_eq. rewrite !py_in_member. unfold member.
    split; intros (e & He & Hp); exists e; split; auto; now apply H. }
  unfold validate_param. now rewrite E.
Qed.

Lemma validate_param_list_same_elements_witness :
  validate_param (Obj 0 (AStr "svg"))
    (VList [Obj 1 (AStr "png"); Obj 2 (AStr "svg")])
  = validate_param (Obj 0 (AStr "svg"))
      (VList [Obj 2 (AStr "svg"); Obj 1 (AStr "png"); Obj 2 (AStr "svg")]).
Proof.
  apply (validate_param_list_same_elements (Obj 0 (AStr "svg"))
           [Obj 1 (AStr "png"); Obj 2 (AStr "svg")]
           [Obj 2 (AStr "svg"); Obj 1 (AStr "png"); Obj 2 (AStr "svg")]).
  intros e. simpl. tauto.
Defined.

(** X8: for a [param] that equals itself (anything but a NaN), with
    identities that name one object each, the list check passes exactly
    when [param] equals some element. *)
Theorem validate_param_list_by_equality (p : obj) (xs : list obj) :
  (forall e, In e xs -> oid p = oid e -> oval p = oval e) ->
  py_eq p p = true ->
  validate_param p (VList xs) = Return tt
  <-> exists e, In e xs /\ py_eq p e = true.
Proof.
  intros Hid Hrefl.
  rewrite validate_param_list_returns, py_in_member.
  now apply member_by_equality.
Qed.

Lemma validate_param_list_by_equality_witness :
  validate_param (Obj 0 (AInt 2)) (VList [Obj 1 (AInt 1); Obj 2 (AFloat (S754_finite false 1 1))])
  = Return tt.
Proof.
  apply (validate_param_list_by_equality (Obj 0 (AInt 2))
           [Obj 1 (AInt 1); Obj 2 (AFloat (S754_finite false 1 1))]).
  - simpl. intros e [<- | [<- | []]]; simpl; lia.
  - reflexivity.
  - exists (Obj 2 (AFloat (S754_finite false 1 1))).
    split; [simpl; auto | reflexivity].
Defined.

(** ** More on [param_exists] *)

Lemma join_not_names (sep : string) (names : list value) :
  forallb (fun v => isinstance v TStr) names = false ->
  join sep names = Raise TypeError.
Proof.
  induction names as [|x xs IH]; simpl; [discriminate|].
  intros H. apply andb_false_iff in H.
  destruct x as [[i a] | ? | ? | ?]; try reflexivity.
  destruct a; try reflexivity. simpl.
  destruct H as [H | H]; [discriminate H|].
  destruct xs as [|y ys]; [discriminate H|].
  now rewrite (IH H).
Qed.

(** X9: the whole outcome of [param_exists]: it returns when some value is
    true, whatever the names are; when none is, it raises [ValueError] if
    every name is a [str], and [TypeError] from building the message if one
    is not. *)
Theorem param_exists_outcome (names params : list value) :
  param_exists names params
  = if any params then Return tt
    else if forallb (fun v => isinstance v TStr) names then Raise ValueError
    else Raise TypeError.
Proof.
  unfold param_exists. destruct (any params); [reflexivity|]. simpl.
  destruct (forallb (fun v => isinstance v TStr) names) eqn:E.
  - destruct (join_names ", " names E) as [msg ->]. reflexivity.
  - now rewrite join_not_names.
Qed.

Lemma param_exists_returns (names params : list value) :
  param_exists names params = Return tt <-> any params = true.
Proof.
  unfold param_exists. destruct (any params); simpl; [split; reflexivity|].
  split; [|discriminate].
  destruct (join_outcome ", " names) as [[s ->] | ->]; discriminate.
Qed.

(** X10: checking two groups of values together passes exactly when one of
    the groups passes on its own; the empty group never does. *)
Theorem param_exists_app (names ps qs : list value) :
  (param_exists names (ps ++ qs) = Return tt <->
   param_exists names ps = Return tt \/ param_exists names qs = Return tt)
  /\ param_exists names [] <> Return tt.
Proof.
  split.
  - rewrite !param_exists_returns. unfold any.
    rewrite existsb_app. apply orb_true_iff.
  - rewrite param_exists_returns. discriminate.
Qed.

(** ** Binding the arguments of a decorated call *)

Lemma arg_lookup_head (name : string) (v : value) (rest : arguments)
    (k : string) :
  arg_lookup ((name, v) :: rest) k
  = if String.eqb name k then Some v else arg_lookup rest k.
Proof. reflexivity. Qed.

(** After a binding that succeeds, a parameter has a value or a default. *)
Lemma sig_bind_covers (sig : signature) (args : list value)
    (kwargs : gmap string value) (b : arguments) (p : parameter) :
  sig_bind sig args kwargs = Return b -> In p sig ->
  is_Some (arg_lookup b (pname p)) \/ is_Some (default p).
Proof.
  revert args kwargs b.
  induction sig as [|q sig IH]; intros args kwargs b Hb Hp; [destruct Hp|].
  simpl in Hb.
  assert (forall rest v, (In p sig ->
              is_Some (arg_lookup rest (pname p)) \/ is_Some (default p)) ->
            is_Some (arg_lookup ((pname q, v) :: rest) (pname p))
            \/ is_Some (default p)) as Hcons.
  { intros rest v Hrest. rewrite arg_lookup_head.
    destruct (String.eqb_spec (pname q) (pname p)) as [E | E]; [left; eauto|].
    destruct Hp as [-> | Hp]; [contradiction | auto]. }
  destruct args as [|a args]; destruct (kwargs !! pname q) as [v|] eqn:Ek;
    try discriminate Hb.
  - destruct (sig_bind sig [] (delete (pname q) kwargs)) as [rest|] eqn:Er;
      [|discriminate Hb].
    injection Hb as <-. apply Hcons. eauto.
  - destruct (default q) as [d|] eqn:Ed; [|discriminate Hb].
    destruct Hp as [<- | Hp]; [right; rewrite Ed; eauto | eauto].
  - destruct (sig_bind sig args kwargs) as [rest|] eqn:Er; [|discriminate Hb].
    injection Hb as <-. apply Hcons. eauto.
Qed.

Lemma apply_defaults_covered (sig : signature) (b : arguments) :
  (forall p, In p sig ->
     is_Some (arg_lookup b (pname p)) \/ is_Some (default p)) ->
  map fst (apply_defaults sig b) = param_names sig.
Proof.
  induction sig as [|q sig IH]; intros H; [reflexivity|]. simpl.
  assert (map fst (apply_defaults sig b) = param_names sig) as E
    by (apply IH; intros p Hp; apply H; now right).
  destruct (arg_lookup b (pname q)) as [v|] eqn:El; [simpl; now rewrite E|].
  destruct (default q) as [d|] eqn:Ed; [simpl; now rewrite E|].
  destruct (H q (or_introl eq_refl)) as [[x Hx] | [x Hx]]; congruence.
Qed.

(** X11: when a call binds, the method body is run on one value for each
    parameter of the signature, in the order of the signature. *)
Theorem bound_arguments_names (sig : signature) (args : list value)
    (kwargs : gmap string value) (b : arguments) :
  sig_bind sig args kwargs = Return b ->
  map fst (apply_defaults sig b) = param_names sig.
Proof.
  intros Hb. apply apply_defaults_covered.
  intros p Hp. exact (sig_bind_covers sig args kwargs b p Hb Hp).
Qed.

Lemma bound_arguments_names_witness :
  map fst (apply_defaults (msig sample_method)
             [("self", client); ("x", py_int 1 5)])
  = ["self"; "x"; "mode"; "extra"].
Proof.
  apply (bound_arguments_names (msig sample_method) [client; py_int 1 5] ∅
           [("self", client); ("x", py_int 1 5)]).
  reflexivity.
Defined.






(** ** What the decorator adds to a call *)

Lemma sig_parameter_in (sig : signature) (name : string) (q : parameter) :
  sig_parameter sig name = Return q -> In q sig /\ pname q = name.
Proof.
  induction sig as [|p sig IH]; simpl; [discriminate|].
  destruct (String.eqb_spec (pname p) name) as [E | E].
  - intros [= <-]. auto.
  - intros H. destruct (IH H). auto.
Qed.

Lemma sig_parameter_nodup (sig : signature) (p : parameter) :
  List.NoDup (param_names sig) -> In p sig ->
  sig_parameter sig (pname p) = Return p.
Proof.
  induction sig as [|q sig IH]; simpl; [intros _ []|].
  intros Hnd Hp. inversion Hnd as [|? ? Hq Hnd']; subst.
  destruct Hp as [-> | Hp]; [now rewrite String.eqb_refl|].
  destruct (String.eqb_spec (pname q) (pname p)) as [E | E]; [|auto].
  exfalso. apply Hq. rewrite E. now apply in_map.
Qed.

Lemma apply_defaults_default (sig : signature) (b : arguments)
    (p : parameter) (d : value) :
  In p sig -> arg_lookup b (pname p) = None -> default p = Some d ->
  In (pname p, d) (apply_defaults sig b).
Proof.
  intros Hp Hb Hd. induction sig as [|q sig IH]; [destruct Hp|]. simpl.
  destruct Hp as [-> | Hp].
  - rewrite Hb, Hd. now left.
  - specialize (IH Hp).
    destruct (arg_lookup b (pname q)); [now right|].
    destruct (default q); [now right | assumption].
Qed.

(** X16: defaults are checked as well.  When a parameter other than [self]
    has a default that is not an instance of its annotation, every call
    that binds and leaves the parameter out raises [TypeError], and the body
    is not run. *)
Theorem mismatched_default {world : Type} (m : method world) (self : value)
    (args : list value) (kwargs : gmap string value) (w : world)
    (b : arguments) (p : parameter) (t : pytype) (d : value) :
  List.NoDup (param_names (msig m)) ->
  kwargs !! "self" = None ->
  sig_bind (msig m) (self :: args) kwargs = Return b ->
  In p (msig m) -> String.eqb (pname p) "self" = false ->
  annotation p = Some t -> default p = Some d -> isinstance d t = false ->
  arg_lookup b (pname p) = None ->
  enforce_types m self args kwargs w = (Raise TypeError, w).
Proof.
  intros Hnd Hk Hb Hp Hself Ha Hd Hi Hout.
  unfold enforce_types, wrapper. rewrite Hk, Hb.
  rewrite check_arguments_spec by apply apply_defaults_names.
  assert (existsb (checked_mismatch (msig m)) (apply_defaults (msig m) b)
          = true) as ->; [|reflexivity].
  apply existsb_exists. exists (pname p, d). split.
  - now apply apply_defaults_default.
  - unfold checked_mismatch, annotated_mismatch. simpl.
    rewrite Hself, (sig_parameter_nodup _ _ Hnd Hp), Ha, Hi. reflexivity.
Qed.

Lemma mismatched_default_witness :
  enforce_types optional_color client [] ∅ 0%nat = (Raise TypeError, 0%nat).
Proof.
  apply (mismatched_default optional_color client [] ∅ 0%nat
           [("self", client)]
           (MkParam "color" (Some TStr) (Some (VScalar (Obj 0 ANone))))
           TStr (VScalar (Obj 0 ANone))).
  - unfold param_names. simpl. apply NoDup_ListNoDup.
    apply (bool_decide_unpack _). vm_compute. reflexivity.
  - reflexivity.
  - reflexivity.
  - simpl. auto.
  - reflexivity.
  - reflexivity.
  - reflexivity.
  - reflexivity.
  - reflexivity.
Defined.

Lemma plain_signature_unchecked (sig : signature) (item : string * value) :
  forallb plain_parameter sig = true -> checked_mismatch sig item = false.
Proof.
  intros Hall. unfold checked_mismatch, annotated_mismatch.
  destruct (String.eqb (fst item) "self") eqn:Es; [reflexivity|]. simpl.
  destruct (sig_parameter sig (fst item)) as [q|] eqn:Eq; [|reflexivity].
  apply sig_parameter_in in Eq as [Hq En].
  rewrite forallb_forall in Hall. specialize (Hall q Hq).
  unfold plain_parameter in Hall. rewrite En, Es in Hall. simpl in Hall.
  now destruct (annotation q).
Qed.

(** X17: on a method with no annotation outside [self], the decorator is
    transparent: a call without a keyword named [self] gives what the direct
    call of the method gives. *)
Theorem plain_method_unchanged {world : Type} (m : method world)
    (self : value) (args : list value) (kwargs : gmap string value)
    (w : world) :
  forallb plain_parameter (msig m) = true ->
  kwargs !! "self" = None ->
  enforce_types m self args kwargs w = call m (self :: args) kwargs w.
Proof.
  intros Hall Hk. unfold enforce_types, wrapper, call. rewrite Hk.
  destruct (sig_bind (msig m) (self :: args) kwargs) as [b|e]; [|reflexivity].
  rewrite check_arguments_spec by apply apply_defaults_names.
  assert (existsb (checked_mismatch (msig m)) (apply_defaults (msig m) b)
          = false) as ->; [|reflexivity].
  apply not_true_is_false. intros H.
  apply existsb_exists in H as (item & _ & H).
  now rewrite plain_signature_unchecked in H.
Qed.

Lemma plain_method_unchanged_witness :
  enforce_types
    (Method [MkParam "self" (Some TInt) None; MkParam "x" None None]
            (fun a w => (Return (VList []), S w)))
    client [py_str 1 "a"] ∅ 0%nat
  = (Return (VList []), 1%nat).
Proof.
  exact (eq_trans
           (plain_method_unchanged
              (Method [MkParam "self" (Some TInt) None; MkParam "x" None None]
                      (fun a w => (Return (VList []), S w)))
              client [py_str 1 "a"] ∅ 0%nat eq_refl eq_refl)
           eq_refl).
Defined.

(** X18: with a body that raises nothing, the only exception a decorated
    call can raise is [TypeError], and it is raised with the world as it was
    before the call: the lookup of a bound name in the signature does not
    fail. *)
Theorem only_type_error {world : Type} (m : method world) (self : value)
    (args : list value) (kwargs : gmap string value) (w w' : world)
    (e : exn) :
  (forall a w0, exists v w1, mbody m a w0 = (Return v, w1)) ->
  enforce_types m self args kwargs w = (Raise e, w') ->
  e = TypeError /\ w' = w.
Proof.
  intros Hbody. unfold enforce_types, wrapper, call.
  destruct (kwargs !! "self"); [intros [= <- <-]; auto|].
  destruct (sig_bind (msig m) (self :: args) kwargs) as [b|e0] eqn:Eb.
  - rewrite check_arguments_spec by apply apply_defaults_names.
    destruct (existsb (checked_mismatch (msig m)) (apply_defaults (msig m) b));
      [intros [= <- <-]; auto|].
    destruct (Hbody (apply_defaults (msig m) b) w) as (v & w1 & ->).
    discriminate.
  - apply sig_bind_raises in Eb as ->. intros [= <- <-]. auto.
Qed.

Lemma only_type_error_witness :
  enforce_types optional_color client [] ∅ 0%nat = (Raise TypeError, 0%nat)
  /\ (TypeError = TypeError /\ 0%nat = 0%nat).
Proof.
  split; [reflexivity|].
  apply (only_type_error optional_color client [] ∅ 0%nat 0%nat TypeError).
  - intros a w0. exists (VScalar (Obj 0 ANone)), (S w0). reflexivity.
  - reflexivity.
Defined.

Lemma enforce_types_unbound_witness :
  enforce_types sample_method client [] {[ "colour" := py_str 1 "red" ]} 0%nat
  = (Raise TypeError, 0%nat)
  /\ call sample_method [client] {[ "colour" := py_str 1 "red" ]} 0%nat
     = (Raise TypeError, 0%nat).
Proof.
  apply (enforce_types_unbound sample_method client []
           {[ "colour" := py_str 1 "red" ]} 0%nat TypeError).
  reflexivity.
Defined.

(** ** The helpers as programs: they finish and leave the heap as it was *)

Lemma pbind_load {B : Type} (l : nat) (k : value -> prog B)
    (h : gmap nat value) (v : value) :
  h !! l = Some v -> pbind (load l) k h = k v h.
Proof. intros H. unfold pbind, load. now rewrite H. Qed.

Lemma pbind_lift {A B : Type} (r : result A) (k : A -> prog B)
    (h : gmap nat value) :
  pbind (lift r) k h
  = match r with
    | Return a => k a h
    | Raise e => Some (Raise e, h)
    end.
Proof. unfold pbind, lift. now destruct r. Qed.

Lemma any_loop_spec (fuel l i : nat) (h : gmap nat value) (v : value)
    (xs : list value) :
  h !! l = Some v -> items v = Return xs ->
  (List.length xs - i < fuel)%nat ->
  any_loop fuel l i h = Some (Return (existsb truthy (drop i xs)), h).
Proof.
  intros Hl Hv. revert i.
  induction fuel as [|fuel IH]; intros i Hf; [lia|].
  cbn [any_loop]. rewrite (pbind_load _ _ _ _ Hl), pbind_lift, Hv.
  destruct (xs !! i) as [x|] eqn:Ex.
  - rewrite (drop_S _ _ _ Ex). cbn [existsb].
    destruct (truthy x); [reflexivity|]. cbn [orb].
    apply IH. apply lookup_lt_Some in Ex. lia.
  - apply lookup_ge_None in Ex. now rewrite drop_ge.
Qed.

Lemma any_loop_not_iterable (fuel l i : nat) (h : gmap nat value) (v : value)
    (e : exn) :
  h !! l = Some v -> items v = Raise e ->
  any_loop (S fuel) l i h = Some (Raise e, h).
Proof.
  intros Hl Hv. cbn [any_loop].
  now rewrite (pbind_load _ _ _ _ Hl), pbind_lift, Hv.
Qed.

Lemma as_str_outcome (x : value) :
  as_str x = if isinstance x TStr then as_str x else Raise TypeError.
Proof.
  destruct x as [[i a] | ? | ? | ?]; try reflexivity. now destruct a.
Qed.

Lemma join_loop_spec (fuel : nat) (sep : string) (l i : nat) (acc : string)
    (h : gmap nat value) (v : value) (xs : list value) :
  h !! l = Some v -> items v = Return xs ->
  (List.length xs - i < fuel)%nat ->
  if forallb (fun x => isinstance x TStr) (drop i xs)
  then exists s, join_loop fuel sep l i acc h = Some (Return s, h)
  else join_loop fuel sep l i acc h = Some (Raise TypeError, h).
Proof.
  intros Hl Hv. revert i acc.
  induction fuel as [|fuel IH]; intros i acc Hf; [lia|].
  cbn [join_loop]. rewrite (pbind_load _ _ _ _ Hl), pbind_lift, Hv.
  destruct (xs !! i) as [x|] eqn:Ex.
  - rewrite (drop_S _ _ _ Ex). cbn [forallb].
    rewrite pbind_lift, as_str_outcome.
    destruct (isinstance x TStr) eqn:Ei; cbn [andb]; [|reflexivity].
    destruct (as_str x) as [s|e] eqn:Es.
    + apply IH. apply lookup_lt_Some in Ex. lia.
    + rewrite as_str_outcome, Ei in Es.
      destruct x as [[j a] | ? | ? | ?]; try discriminate Ei.
      destruct a; discriminate.
  - apply lookup_ge_None in Ex. rewrite drop_ge by assumption.
    cbn [forallb]. now eexists.
Qed.

Lemma in_loop_spec (fuel : nat) (x : obj) (l i : nat) (h : gmap nat value)
    (xs : list obj) :
  h !! l = Some (VList xs) -> (List.length xs - i < fuel)%nat ->
  in_loop fuel x l i h = Some (Return (py_in x (drop i xs)), h).
Proof.
  intros Hl. revert i.
  induction fuel as [|fuel IH]; intros i Hf; [lia|].
  cbn [in_loop]. rewrite (pbind_load _ _ _ _ Hl). unfold py_in.
  destruct (xs !! i) as [e|] eqn:Ex.
  - rewrite (drop_S _ _ _ Ex). cbn [existsb].
    destruct (py_is x e || py_eq x e); [reflexivity|]. cbn [orb].
    apply IH. apply lookup_lt_Some in Ex. lia.
  - apply lookup_ge_None in Ex. now rewrite drop_ge.
Qed.

Lemma format_loop_spec (fuel l i : nat) (h : gmap nat value) (v : value)
    (xs : list value) :
  h !! l = Some v -> items v = Return xs ->
  (List.length xs - i < fuel)%nat ->
  format_loop fuel l i h = Some (Return tt, h).
Proof.
  intros Hl Hv. revert i.
  induction fuel as [|fuel IH]; intros i Hf; [lia|].
  cbn [format_loop]. rewrite (pbind_load _ _ _ _ Hl), pbind_lift, Hv.
  destruct (xs !! i) as [x|] eqn:Ex; [|reflexivity].
  apply IH. apply lookup_lt_Some in Ex. lia.
Qed.

Lemma match_steps_spec (fuel : nat) (its : list re_item) (pos : nat)
    (rest : string) :
  (List.length its < fuel)%nat ->
  match_steps fuel its pos rest = Some (match_here its pos rest).
Proof.
  revert fuel pos rest.
  induction its as [|it k IH]; intros fuel pos rest Hf;
    (destruct fuel as [|fuel]; [simpl in Hf; lia|]); [reflexivity|].
  assert (forall pos' rest', match_steps fuel k pos' rest'
                             = Some (match_here k pos' rest')) as Hk
    by (intros; apply IH; simpl in Hf; lia).
  destruct it; cbn [match_steps match_here].
  - destruct (Nat.eqb pos 0); [apply Hk | reflexivity].
  - destruct (String.eqb rest "" || String.eqb rest (String newline ""));
      [apply Hk | reflexivity].
  - destruct rest as [|a r]; [reflexivity|].
    destruct (Ascii.eqb a c); [apply Hk | reflexivity].
  - destruct rest as [|a r]; [reflexivity|].
    destruct (in_class a ranges); [apply Hk | reflexivity].
Qed.

Lemma run_param_exists_spec (fuel names params : nat) (h : gmap nat value)
    (vn vp : value) :
  h !! names = Some vn -> h !! params = Some vp ->
  (items_count vn < fuel)%nat -> (items_count vp < fuel)%nat ->
  run_param_exists fuel names params h = Some (param_exists_on vn vp, h).
Proof.
  intros Hn Hp Fn Fp. unfold run_param_exists, param_exists_on, items_count in *.
  destruct fuel as [|fuel]; [lia|].
  destruct (items vp) as [ps|e] eqn:Ep.
  - unfold pbind at 1.
    rewrite (any_loop_spec (S fuel) params 0 h vp ps Hp Ep) by lia.
    rewrite drop_0. cbn [bind]. fold (any ps).
    destruct (any ps); [reflexivity|]. cbn [negb].
    destruct (items vn) as [ns|e] eqn:En.
    + pose proof (join_loop_spec (S fuel) ", " names 0 "" h vn ns Hn En) as Hj.
      rewrite drop_0 in Hj. cbn [bind]. unfold pbind.
      destruct (forallb (fun x => isinstance x TStr) ns) eqn:Ea.
      * destruct Hj as [s ->]; [lia|].
        destruct (join_names ", " ns Ea) as [msg ->]. reflexivity.
      * rewrite Hj by lia. now rewrite join_not_names.
    + unfold pbind. cbn [join_loop bind].
      now rewrite (pbind_load _ _ _ _ Hn), pbind_lift, En.
  - unfold pbind.
    now rewrite (any_loop_not_iterable fuel params 0 h vp e Hp Ep).
Qed.

Lemma run_validate_param_spec (fuel : nat) (p : obj) (options : nat)
    (h : gmap nat value) (vo : value) :
  h !! options = Some vo -> (items_count vo < fuel)%nat ->
  run_validate_param fuel p options h = Some (validate_param p vo, h).
Proof.
  intros Ho Fo. unfold run_validate_param. rewrite (pbind_load _ _ _ _ Ho).
  destruct vo as [o | xs | xs | xs]; try reflexivity.
  - destruct xs as [|start [|stop [|c xs]]]; try reflexivity.
    unfold validate_param. destruct (atom_truthy (oval p)); [|reflexivity].
    rewrite pbind_lift.
    destruct (chain_le (oval start) (oval p) (oval stop)) as [[]|];
      reflexivity.
  - unfold items_count in Fo. simpl in Fo. rewrite length_map in Fo.
    unfold pbind at 1. rewrite (in_loop_spec fuel p options 0 h xs Ho) by lia.
    rewrite drop_0. unfold validate_param.
    destruct (py_in p xs); [reflexivity|]. cbn [negb]. unfold pbind.
    rewrite (format_loop_spec fuel options 0 h (VList xs) (map VScalar xs) Ho)
      by (reflexivity || (rewrite length_map; lia)).
    reflexivity.
Qed.

Lemma run_validate_hex_spec (fuel color : nat) (h : gmap nat value)
    (vc : value) :
  h !! color = Some vc -> (9 < fuel)%nat ->
  run_validate_hex fuel color h = Some (validate_hex vc, h).
Proof.
  intros Hc Ff. unfold run_validate_hex. rewrite (pbind_load _ _ _ _ Hc).
  unfold validate_hex, re_match_steps, re_match, pbind.
  destruct vc as [[i a] | ? | ? | ?]; try reflexivity.
  destruct a; try reflexivity.
  rewrite match_steps_spec by (simpl; lia). cbn [bind].
  now destruct (match_here (expand hex_pattern) 0 s).
Qed.

Lemma param_exists_on_outcome (vn vp : value) :
  helper_outcome (param_exists_on vn vp).
Proof.
  unfold helper_outcome, param_exists_on.
  assert (forall v, (exists xs, items v = Return xs)
                    \/ items v = Raise TypeError) as Hi.
  { intros [[i a] | ? | ? | ?]; simpl; eauto. destruct a; eauto. }
  destruct (Hi vp) as [[ps ->] | ->]; simpl; auto.
  destruct (any ps); simpl; auto.
  destruct (Hi vn) as [[ns ->] | ->]; simpl; auto.
  destruct (join_outcome ", " ns) as [[s ->] | ->]; simpl; auto.
Qed.

(** On two lists, [param_exists_on] is [param_exists] on their elements. *)
Lemma param_exists_on_lists (ns ps : list obj) :
  param_exists_on (VList ns) (VList ps)
  = param_exists (map VScalar ns) (map VScalar ps).
Proof.
  unfold param_exists_on, param_exists. simpl.
  now destruct (any (map VScalar ps)).
Qed.

(** A step that writes is seen in the heap a program leaves. *)
Example list_clear_changes_heap :
  list_clear 2 sample_heap
  = Some (Return tt, <[2%nat := VList []]> sample_heap)
  /\ <[2%nat := VList []]> sample_heap <> sample_heap.
Proof.
  split; [reflexivity|]. intros E.
  assert (<[2%nat := VList []]> sample_heap !! 2%nat = sample_heap !! 2%nat)
    as H by now rewrite E.
  vm_compute in H. discriminate H.
Qed.

(** C7: each helper finishes on every input, with a number of rounds bounded
    by the number of items of its arguments (and by the length of the
    pattern, for [validate_hex]); it returns or raises [ValueError] or
    [TypeError]; and the heap it leaves is the heap it was given. *)
Theorem helpers_terminate (h : gmap nat value) (names params options color : nat)
    (vn vp vo vc : value) (p : obj) (fuel : nat) :
  h !! names = Some vn -> h !! params = Some vp ->
  h !! options = Some vo -> h !! color = Some vc ->
  (items_count vn + items_count vp + items_count vo + 9 < fuel)%nat ->
  (run_param_exists fuel names params h = Some (param_exists_on vn vp, h)
   /\ helper_outcome (param_exists_on vn vp))
  /\ (run_validate_param fuel p options h = Some (validate_param p vo, h)
      /\ helper_outcome (validate_param p vo))
  /\ (run_validate_hex fuel color h = Some (validate_hex vc, h)
      /\ helper_outcome (validate_hex vc)).
Proof.
  intros Hn Hp Ho Hc Hf.
  destruct (helpers_total [] [] p vo vc) as (_ & Hvp & Hvh).
  split; [|split]; split.
  - apply run_param_exists_spec; auto; lia.
  - apply param_exists_on_outcome.
  - apply run_validate_param_spec; auto; lia.
  - exact Hvp.
  - apply run_validate_hex_spec; auto; lia.
  - exact Hvh.
Qed.

Lemma helpers_terminate_witness :
  run_param_exists 20 1 2 sample_heap = Some (Raise ValueError, sample_heap)
  /\ run_validate_param 20 (Obj 0 (AStr "svg")) 3 sample_heap
     = Some (Return tt, sample_heap)
  /\ run_validate_hex 20 4 sample_heap = Some (Return tt, sample_heap).
Proof.
  destruct (helpers_terminate sample_heap 1 2 3 4
              (VList [Obj 11 (AStr "image_path"); Obj 12 (AStr "image_url")])
              (VList [Obj 21 (AStr ""); Obj 22 (AStr "")])
              (VList [Obj 31 (AStr "svg"); Obj 32 (AStr "png")])
              (VScalar (Obj 41 (AStr "#a0b1c2")))
              (Obj 0 (AStr "svg")) 20)
    as ((H1 & _) & (H2 & _) & (H3 & _));
    [reflexivity | reflexivity | reflexivity | reflexivity
     | vm_compute; lia | ].
  split; [exact H1 | split; [exact H2 | exact H3]].
Defined.
